(** * seashore: building command lines and running them

    A shallow embedding of [seashore/executor.py], [seashore/command.py]
    and [seashore/shell.py], followed by the properties of the argument
    encoder, of [Command], and of [Shell]. *)

From Stdlib Require Import Ascii String ZArith.
From stdpp Require Import gmap strings list fin_maps pretty.

Set Warnings "-register-all".

Local Open Scope string_scope.
Local Open Scope list_scope.

(** ** Python values, exceptions and results *)

Module Py.

(** [shell.Output], an [enum.Enum]. *)
Inductive Output := LOG | CAPTURE | PASS_THROUGH.

(** What a mapping given as an option value holds on either side of an
    entry: the objects whose [format] is their plain text. *)
Inductive atom :=
| AStr (s : string)
| AInt (n : Z).

(** The Python objects that reach the encoders, the keyword arguments
    and the environment. [VNoValue] is [command.NO_VALUE], the one
    instance of [_NoValue]; [VObject] is [executor.NO_VALUE], a bare
    [object()]. Each module has an [Eq] class of its own: [VEq] is an
    instance of [command.Eq], [VExecutorEq] one of [executor.Eq]. [VBytes]
    is a [bytes] object. *)
Inductive value :=
| VNoValue
| VObject
| VEq (content : string)
| VExecutorEq (content : string)
| VBytes (data : string)
| VStr (s : string)
| VInt (n : Z)
| VBool (b : bool)
| VNone
| VList (xs : list value)
| VDict (items : list (atom * atom))
| VOutput (o : Output).

Inductive exn :=
| ValueError (msg : string) (v : value)
| TypeError (msg : string)
| CalledProcessError (returncode : Z) (cmd : list value) (stdout stderr : value).

(** A call either returns or raises. *)
Inductive result (A : Type) :=
| Return (a : A)
| Raise (e : exn).
Arguments Return {A} a.
Arguments Raise {A} e.

Definition bind {A B} (m : result A) (k : A -> result B) : result B :=
  match m with
  | Return a => k a
  | Raise e => Raise e
  end.

(** [str.replace("_", "-")] *)
Fixpoint replace_underscores (s : string) : string :=
  match s with
  | EmptyString => EmptyString
  | String c rest =>
      String (if Ascii.eqb c "_" then "-"%char else c) (replace_underscores rest)
  end.

(** [str.rstrip("_")] *)
Fixpoint rstrip_underscores (s : string) : string :=
  match s with
  | EmptyString => EmptyString
  | String c rest =>
      match rstrip_underscores rest with
      | EmptyString => if Ascii.eqb c "_" then EmptyString else String c EmptyString
      | kept => String c kept
      end
  end.

(** [str(n)] for an [int], [str(b)] for a [bool] *)
Definition str_int (n : Z) : string := pretty n.
Definition str_bool (b : bool) : string := if b then "True" else "False".

(** ["{}".format(a)] *)
Definition format (a : atom) : string :=
  match a with
  | AStr s => s
  | AInt n => str_int n
  end.

(** Truth value of an object, as [if check and retcode] takes it. *)
Definition truthy (v : value) : bool :=
  match v with
  | VNoValue | VObject | VEq _ | VExecutorEq _ | VOutput _ => true
  | VStr s | VBytes s => negb (String.eqb s "")
  | VInt n => negb (n =? 0)%Z
  | VBool b => b
  | VNone => false
  | VList xs => negb (Nat.eqb (length xs) 0)
  | VDict items => negb (Nat.eqb (length items) 0)
  end.

(** [v == True] *)
Definition eq_True (v : value) : bool :=
  match v with
  | VBool b => b
  | VInt n => (n =? 1)%Z
  | _ => false
  end.

(** [v == Output.X]: enum members are equal only to themselves. *)
Definition eq_Output (v : value) (o : Output) : bool :=
  match v, o with
  | VOutput LOG, LOG | VOutput CAPTURE, CAPTURE
  | VOutput PASS_THROUGH, PASS_THROUGH => true
  | _, _ => false
  end.

(** [v is None] *)
Definition is_None (v : value) : bool :=
  match v with
  | VNone => true
  | _ => false
  end.

End Py.

Import Py.

(** [x ← m; k] runs [m] and passes what it returns to [k]; an exception
    raised by [m] propagates. *)
#[global] Instance result_bind : MBind result := fun A B k m => Py.bind m k.

(** ** executor.py *)

Module Executor.

(** [_keyword_arguments], a [functools.singledispatch] generic: the [Eq]
    of this module, [str], [int] (and so [bool]), [list] and [dict] are
    registered, every other object takes the default implementation. *)
Definition _keyword_arguments (v : value) (key : string) : list value :=
  match v with
  | VExecutorEq content => [VStr (key +:+ "=" +:+ content)]
  | VStr _ => [VStr key; v]
  | VInt n => [VStr key; VStr (str_int n)]
  | VBool b => [VStr key; VStr (str_bool b)]
  | VList xs => flat_map (fun thing => [VStr key; thing]) xs
  | VDict items =>
      flat_map (fun '(in_k, thing) =>
                  [VStr key; VStr (format in_k +:+ "=" +:+ format thing)]) items
  | VNoValue | VObject | VEq _ | VBytes _ | VNone | VOutput _ => [VStr key]
  end.

(** The types registered with the generic. *)
Definition registered (v : value) : bool :=
  match v with
  | VExecutorEq _ | VStr _ | VInt _ | VBool _ | VList _ | VDict _ => true
  | VNoValue | VObject | VEq _ | VBytes _ | VNone | VOutput _ => false
  end.

(** [cmd(binary, *args, **kwargs)] *)
Definition cmd (binary : value) (args : list value)
    (kwargs : list (string * value)) : list value :=
  let ret := [binary] in
  let ret := ret ++ args in
  fold_left
    (fun ret '(key, v) =>
       let key := "--" +:+ replace_underscores key in
       ret ++ _keyword_arguments v key)
    kwargs ret.

(** [functools.partial(self._executor.prepare, self._name, subcommand)]:
    the two arguments the partial application has bound. *)
Record prepare_partial := {
  bound_name : string;
  bound_subcommand : string
}.

(** [_ExecutoredCommand]; the executor it is bound to is only the owner
    of [prepare] and is left out. *)
Record _ExecutoredCommand := {
  _name : string
}.

(** [_ExecutoredCommand.__getattr__] *)
Definition getattr (self : _ExecutoredCommand) (subcommand : string)
    : prepare_partial :=
  let subcommand := replace_underscores (rstrip_underscores subcommand) in
  {| bound_name := _name self; bound_subcommand := subcommand |}.

(** [s.startswith(pre)] and [s.endswith(suf)] *)
Definition startswith (s pre : string) : bool := String.prefix pre s.

Fixpoint endswith (s suf : string) : bool :=
  String.eqb s suf ||
  match s with
  | EmptyString => false
  | String _ rest => endswith rest suf
  end.

(** What getting an attribute gives: the object, or [AttributeError(name)]. *)
Inductive attribute (A : Type) :=
| Found (a : A)
| AttributeError (name : string).
Arguments Found {A} a.
Arguments AttributeError {A} name.

(** [Executor], by the set of command names it holds in [_commands]; its
    shell and its index URL play no part in finding a command. *)
Record Executor := {
  _commands : gset string
}.

(** [Executor.__getattr__]; [Command(name).bind(self)] is the
    [_ExecutoredCommand] of that name. *)
Definition Executor_getattr (self : Executor) (name : string)
    : attribute _ExecutoredCommand :=
  if startswith name "__" && endswith name "__" then
    AttributeError name
  else if negb (bool_decide (name ∈ _commands self)) then
    AttributeError name
  else
    let name := replace_underscores name in
    Found {| _name := name |}.

(** [Executor.add_command] *)
Definition add_command (self : Executor) (name : string) : Executor :=
  {| _commands := _commands self ∪ {[ name ]} |}.

End Executor.

(** ** shell.py *)

Module Shell.

(** [shell.RunArgs]; attrs checks no types, a field holds what it is given. *)
Record RunArgs := {
  text : value;
  check : value;
  output : value
}.

Definition default_RunArgs : RunArgs :=
  {| text := VBool true; check := VBool true; output := VOutput PASS_THROUGH |}.

(** [attrs.evolve(run_args, **kwargs)]: a keyword that is no field of
    [RunArgs] is refused by its [__init__]. *)
Fixpoint evolve_RunArgs (r : RunArgs) (kwargs : list (string * value))
    : result RunArgs :=
  match kwargs with
  | [] => Return r
  | (key, v) :: rest =>
      if String.eqb key "text" then
        evolve_RunArgs {| text := v; check := check r; output := output r |} rest
      else if String.eqb key "check" then
        evolve_RunArgs {| text := text r; check := v; output := output r |} rest
      else if String.eqb key "output" then
        evolve_RunArgs {| text := text r; check := check r; output := v |} rest
      else
        Raise (TypeError ("__init__() got an unexpected keyword argument '"
                          +:+ key +:+ "'"))
  end.

(** A [pathlib.Path], kept as the expression that built it. *)
Inductive Path :=
| PathOf (s : string)
| Join (p : Path) (name : string).

(** [p / name] *)
Definition truediv (p : Path) (name : string) : Path := Join p name.

(** [p + suffix]: [Path] defines no addition and [str] no reflected
    addition, so the operator raises. *)
Definition add (p : Path) (suffix : string) : result Path :=
  Raise (TypeError "unsupported operand type(s) for +: 'PosixPath' and 'str'").

(** A file object got from [Path.open(mode)]. *)
Record file := {
  file_path : Path;
  file_mode : string
}.

Definition open (p : Path) (mode : string) : file :=
  {| file_path := p; file_mode := mode |}.

(** The keyword arguments [run_command] collects in [output_args]:
    none, [stdout] and [stderr], or [capture_output=True]. *)
Inductive output_args :=
| Inherit
| Redirect (stdout stderr : file)
| CaptureOutput.

(** [subprocess.CompletedProcess] *)
Record CompletedProcess := {
  cp_args : list value;
  returncode : Z;
  cp_stdout : value;
  cp_stderr : value
}.

(** The callable a [Shell] runs processes with:
    [run(cmd_args, check=..., text=..., **output_args)]. *)
Definition runner : Type :=
  list value -> value -> value -> output_args -> result CompletedProcess.

(** What a spawned process does: its exit status and what it writes. *)
Record outcome := {
  exit_status : Z;
  written_stdout : string;
  written_stderr : string
}.

(** [subprocess.run], the default runner, for processes that behave as
    [proc] says: the streams are kept only under [capture_output], as
    [str] when [text] is true and as [bytes] otherwise, and with a true
    [check] a non-zero status raises [CalledProcessError]. *)
Definition subprocess_run (proc : list value -> outcome) : runner :=
  fun cmd_args check text oa =>
    let o := proc cmd_args in
    let captured (data : string) :=
      match oa with
      | CaptureOutput => if truthy text then VStr data else VBytes data
      | Inherit | Redirect _ _ => VNone
      end in
    let out := captured (written_stdout o) in
    let err := captured (written_stderr o) in
    if truthy check && negb (exit_status o =? 0)%Z then
      Raise (CalledProcessError (exit_status o) cmd_args out err)
    else
      Return {| cp_args := cmd_args; returncode := exit_status o;
                cp_stdout := out; cp_stderr := err |}.

(** Dictionaries are objects in a store; a [Shell] refers to its
    environment by location. *)
Definition loc := positive.
Abbreviation heap := (gmap loc (gmap string value)).

Record Shell := {
  _subprocess_run : runner;
  cwd : Path;
  env : loc;
  log_dir : Path
}.

(** [dict(d)]: a new dictionary with the entries of the one at [l]. *)
Definition dict_copy (l : loc) (h : heap) : loc * heap :=
  let l' := fresh (dom h) in
  (l', <[l' := default ∅ (h !! l)]> h).

(** [d.pop(key, "")] on the dictionary at [l] *)
Definition dict_pop (l : loc) (key : string) (h : heap) : heap :=
  alter (delete key) l h.

(** [d[key] = v] on the dictionary at [l] *)
Definition dict_setitem (l : loc) (key : string) (v : value) (h : heap) : heap :=
  alter (insert key v) l h.

(** [Shell.patch_env] *)
Definition patch_env (self : Shell) (kwargs : list (string * value)) (h : heap)
    : Shell * heap :=
  let '(new_env, h) := dict_copy (env self) h in
  let h :=
    fold_left
      (fun h '(key, v) =>
         let h := if is_None v then dict_pop new_env key h else h in
         dict_setitem new_env key v h)
      kwargs h in
  ({| _subprocess_run := _subprocess_run self; cwd := cwd self;
      env := new_env; log_dir := log_dir self |}, h).

(** [Shell.chdir] *)
Definition chdir (self : Shell) (new_dir : string) (h : heap) : Shell * heap :=
  ({| _subprocess_run := _subprocess_run self;
      cwd := truediv (cwd self) new_dir;
      env := env self; log_dir := log_dir self |}, h).

(** [VisibleCalledProcessError]: the exception it wraps and the
    dictionary with keys [stdout], [stderr] and [cmd]. *)
Record VisibleCalledProcessError := {
  wrapped : exn;
  info_stdout : value;
  info_stderr : value;
  info_cmd : list value
}.

(** [VisibleCalledProcessError.from_called_process_error], given the
    attributes of [exc] *)
Definition from_called_process_error (rc : Z) (cmd : list value)
    (stdout stderr : value) : VisibleCalledProcessError :=
  {| wrapped := CalledProcessError rc cmd stdout stderr;
     info_stdout := stdout; info_stderr := stderr; info_cmd := cmd |}.

(** What [run_command] hands back through [return]. *)
Inductive returned :=
| Completed (p : CompletedProcess)
| Visible (e : VisibleCalledProcessError).

(** The suffixes of the two files opened under [Output.LOG], as the two
    [enter_context] lines spell them. *)
Definition stdout_suffix : string := ".out".
Definition stderr_suffix : string := ".out".

(** [Shell.run_command]; [root_name] is [str(uuid.uuid4())]. *)
Definition run_command (self : Shell) (cmd_args : list value)
    (run_args : RunArgs) (root_name : string) : result returned :=
  oa ←
    (if eq_Output (output run_args) LOG then
       let mode := if eq_True (text run_args) then "w+" else "w+b" in
       out_path ← add (truediv (log_dir self) root_name) stdout_suffix;
       let stdout := open out_path mode in
       err_path ← add (truediv (log_dir self) root_name) stderr_suffix;
       let stderr := open err_path mode in
       Return (Redirect stdout stderr)
     else if eq_Output (output run_args) CAPTURE then
       Return CaptureOutput
     else
       Return Inherit);
  match _subprocess_run self cmd_args (check run_args) (text run_args) oa with
  | Return completed => Return (Completed completed)
  | Raise (CalledProcessError rc cmd stdout stderr) =>
      Return (Visible (from_called_process_error rc cmd stdout stderr))
  | Raise e => Raise e
  end.

End Shell.

(** ** command.py *)

Module Command.

Import Shell.

(** [_keyword_arguments]: here the default implementation raises, and
    [_NoValue] and the [Eq] of this module are registered. *)
Definition _keyword_arguments (v : value) (key : string) : result (list value) :=
  match v with
  | VNoValue => Return [VStr key]
  | VEq content => Return [VStr (key +:+ "=" +:+ content)]
  | VStr _ => Return [VStr key; v]
  | VInt n => Return [VStr key; VStr (str_int n)]
  | VBool b => Return [VStr key; VStr (str_bool b)]
  | VList xs => Return (flat_map (fun thing => [VStr key; thing]) xs)
  | VDict items =>
      Return (flat_map (fun '(in_k, thing) =>
                          [VStr key; VStr (format in_k +:+ "=" +:+ format thing)]) items)
  | VObject | VExecutorEq _ | VBytes _ | VNone | VOutput _ =>
      Raise (ValueError "cannot process" v)
  end.

(** The tags with an encoding rule: absent-marker, equals-form, string,
    integer, list, mapping. *)
Definition supported (v : value) : bool :=
  match v with
  | VNoValue | VEq _ | VStr _ | VInt _ | VBool _ | VList _ | VDict _ => true
  | VObject | VExecutorEq _ | VBytes _ | VNone | VOutput _ => false
  end.

Record _Arguments := {
  _args : list value;
  _kwargs : list (string * value)
}.

(** The loop over [self._kwargs.items()] of [_Arguments.__iter__]. *)
Fixpoint iter_kwargs (kwargs : list (string * value)) : result (list value) :=
  match kwargs with
  | [] => Return []
  | (key, v) :: rest =>
      let key := "--" +:+ replace_underscores key in
      tokens ← _keyword_arguments v key;
      more ← iter_kwargs rest;
      Return (tokens ++ more)
  end.

(** [_Arguments.__iter__], run to exhaustion. *)
Definition iter (self : _Arguments) : result (list value) :=
  tokens ← iter_kwargs (_kwargs self);
  Return (tokens ++ _args self).

(** [args], called with positional and keyword arguments *)
Definition args (a : list value) (kwargs : list (string * value)) : _Arguments :=
  {| _args := a; _kwargs := kwargs |}.

(** What [__call__] may receive as [cmd_args]: a plain list or the
    result of [args]. *)
Inductive iterable :=
| IList (xs : list value)
| IArguments (a : _Arguments).

Definition iterate (it : iterable) : result (list value) :=
  match it with
  | IList xs => Return xs
  | IArguments a => iter a
  end.

Record Command := {
  _subcommand : list value;
  _cmd_args : list value;
  _run_args : RunArgs
}.

(** [Command.__getattr__] *)
Definition getattr (self : Command) (name : string) : Command :=
  let name := replace_underscores name in
  {| _subcommand := _subcommand self ++ [VStr name];
     _cmd_args := _cmd_args self;
     _run_args := _run_args self |}.

(** [Command.__call__] *)
Definition call (self : Command) (cmd_args : option iterable)
    (kwargs : list (string * value)) : result Command :=
  new_cmd_args ←
    match cmd_args with
    | Some it =>
        items ← iterate it;
        Return (_cmd_args self ++ items)
    | None => Return (_cmd_args self)
    end;
  run_args ← evolve_RunArgs (_run_args self) kwargs;
  Return {| _subcommand := _subcommand self;
            _cmd_args := new_cmd_args;
            _run_args := run_args |}.

(** The argument vector [Command.__radd__] hands to the shell. *)
Definition total_args (self : Command) : list value :=
  let total_args := _subcommand self in
  total_args ++ _cmd_args self.

End Command.

(** ** Notions used in the statements *)

(** [n] underscores in a row. *)
Fixpoint underscores (n : nat) : string :=
  match n with
  | O => EmptyString
  | S m => String "_" (underscores m)
  end.

(** Whether the last character of a string is an underscore. *)
Fixpoint ends_with_underscore (s : string) : bool :=
  match s with
  | EmptyString => false
  | String c rest =>
      match rest with
      | EmptyString => Ascii.eqb c "_"
      | String _ _ => ends_with_underscore rest
      end
  end.

Definition is_str (v : value) : Prop :=
  match v with
  | VStr _ => True
  | _ => False
  end.

(** A sequence encoded element by element, each element as a single value
    of its own tag under the same option name. *)
Fixpoint encode_elementwise (xs : list value) (key : string) : result (list value) :=
  match xs with
  | [] => Return []
  | x :: rest =>
      tokens ← Command._keyword_arguments x key;
      more ← encode_elementwise rest key;
      Return (tokens ++ more)
  end.

(** The binding of [key] among keyword arguments. *)
Fixpoint kw_get (key : string) (kwargs : list (string * value)) : option value :=
  match kwargs with
  | [] => None
  | (k, v) :: rest =>
      match kw_get key rest with
      | Some w => Some w
      | None => if String.eqb k key then Some v else None
      end
  end.

(** The names of the fields of [RunArgs]. *)
Definition run_arg_names : list string := ["text"; "check"; "output"].

(** The first keyword that names no field of [RunArgs], if there is one. *)
Definition unexpected_keyword (kwargs : list (string * value)) : option string :=
  fst <$> find (fun kv => negb (existsb (String.eqb kv.1) run_arg_names)) kwargs.

(** One round of the loop of [patch_env], on the dictionary itself. *)
Definition patch_entry (d : gmap string value) (kv : string * value)
    : gmap string value :=
  <[kv.1 := kv.2]> (if is_None kv.2 then delete kv.1 d else d).

(** A process that writes nothing and exits with [status]. *)
Definition exits_with (status : Z) (cmd_args : list value) : Shell.outcome :=
  {| Shell.exit_status := status;
     Shell.written_stdout := ""; Shell.written_stderr := "" |}.

(** A shell over [subprocess.run] whose environment is the dictionary at
    location 1. *)
Definition shell_over (proc : list value -> Shell.outcome) : Shell.Shell :=
  {| Shell._subprocess_run := Shell.subprocess_run proc;
     Shell.cwd := Shell.PathOf "/srv";
     Shell.env := 1%positive;
     Shell.log_dir := Shell.PathOf "/srv/logs" |}.

(** A store where that dictionary binds [A] to ["1"]. *)
Definition store_A1 : gmap Shell.loc (gmap string value) :=
  {[ 1%positive := {[ "A" := VStr "1" ]} ]}.

(** The first option whose value has no encoding rule in [command.py]. *)
Definition unsupported_option (kwargs : list (string * value))
    : option (string * value) :=
  find (fun kv => negb (Command.supported kv.2)) kwargs.

(** The tokens [command.py] gives for the options that have an encoding
    rule, in insertion order. *)
Definition option_tokens (kwargs : list (string * value)) : list value :=
  flat_map (fun kv =>
              match Command._keyword_arguments kv.2
                      ("--" +:+ replace_underscores kv.1) with
              | Return tokens => tokens
              | Raise _ => []
              end) kwargs.

(** Whether an option holds an instance of [command.Eq]. *)
Definition has_Eq_option (kwargs : list (string * value)) : bool :=
  existsb (fun kv => match kv.2 with VEq _ => true | _ => false end) kwargs.

(** Whether a string holds an underscore. *)
Fixpoint has_underscore (s : string) : bool :=
  match s with
  | EmptyString => false
  | String c rest => Ascii.eqb c "_" || has_underscore rest
  end.

(** Whether every token is a string. *)
Definition all_str (tokens : list value) : bool :=
  forallb (fun v => match v with VStr _ => true | _ => false end) tokens.

(** * Properties *)

(** ** Strings *)

Lemma rstrip_underscores_only n : rstrip_underscores (underscores n) = "".
Proof.
  induction n as [|n IH]; simpl; [reflexivity|].
  rewrite IH. reflexivity.
Qed.

Lemma rstrip_underscores_app body n :
  ends_with_underscore body = false ->
  rstrip_underscores (body +:+ underscores n) = body.
Proof.
  induction body as [|c rest IH]; intros Hbody.
  - apply rstrip_underscores_only.
  - change (String c rest +:+ underscores n)
      with (String c (rest +:+ underscores n)).
    cbn [rstrip_underscores].
    destruct rest as [|d rest'].
    + change ("" +:+ underscores n) with (underscores n).
      rewrite rstrip_underscores_only.
      cbn in Hbody. rewrite Hbody. reflexivity.
    + rewrite IH by exact Hbody. reflexivity.
Qed.

Lemma rstrip_underscores_decomposition (s : string) :
  exists n,
    s = rstrip_underscores s +:+ underscores n /\
    ends_with_underscore (rstrip_underscores s) = false.
Proof.
  induction s as [|c rest [n [Hrest Hends]]].
  - exists 0. split; reflexivity.
  - cbn [rstrip_underscores].
    destruct (rstrip_underscores rest) as [|d kept] eqn:Hstrip.
    + destruct (Ascii.eqb_spec c "_") as [->|Hc].
      * exists (S n). split; [|reflexivity].
        exact (f_equal (String "_") Hrest).
      * exists n. split; [exact (f_equal (String c) Hrest)|].
        cbn. apply Ascii.eqb_neq. exact Hc.
    + exists n. split; [exact (f_equal (String c) Hrest)|exact Hends].
Qed.

(** ** The attribute name of a subcommand *)

Lemma replace_underscores_map (s : string) :
  replace_underscores s =
    string_of_list_ascii
      (List.map (fun c => if Ascii.eqb c "_" then "-"%char else c)
         (list_ascii_of_string s)).
Proof.
  induction s as [|c rest IH]; [reflexivity|].
  cbn. rewrite IH. reflexivity.
Qed.

(** C10. On a command bound to an executor, the subcommand token got from
    an attribute name is the name without its trailing underscores, with
    every underscore that is left replaced by a hyphen and every other
    character kept; the command name is bound unchanged. *)
Theorem getattr_strips_then_replaces (self : Executor._ExecutoredCommand)
    (body : string) (n : nat) :
  ends_with_underscore body = false ->
  Executor.getattr self (body +:+ underscores n) =
    {| Executor.bound_name := Executor._name self;
       Executor.bound_subcommand :=
         string_of_list_ascii
           (List.map (fun c => if Ascii.eqb c "_" then "-"%char else c)
              (list_ascii_of_string body)) |}.
Proof.
  intros Hbody. unfold Executor.getattr.
  rewrite rstrip_underscores_app by assumption.
  rewrite replace_underscores_map. reflexivity.
Qed.

Lemma getattr_strips_then_replaces_witness :
  ends_with_underscore "ls_files" = false /\
  Executor.getattr {| Executor._name := "git" |} "ls_files__" =
    {| Executor.bound_name := "git"; Executor.bound_subcommand := "ls-files" |}.
Proof.
  split; [reflexivity|].
  apply (getattr_strips_then_replaces {| Executor._name := "git" |} "ls_files" 2).
  reflexivity.
Defined.

(** A reserved word of Python as a subcommand: the attribute [import_]. *)
Example getattr_import_ :
  Executor.getattr {| Executor._name := "git" |} "import_" =
    {| Executor.bound_name := "git"; Executor.bound_subcommand := "import" |}.
Proof. reflexivity. Qed.

(** ** The argument encoders *)

Lemma encode_elementwise_strings (xs : list value) (key : string) :
  Forall is_str xs ->
  encode_elementwise xs key = Return (flat_map (fun thing => [VStr key; thing]) xs).
Proof.
  induction 1 as [|x rest Hx _ IH]; [reflexivity|].
  destruct x; try contradiction.
  cbn. rewrite IH. reflexivity.
Qed.

(** C8, as amended. For an option whose value is a sequence, both encoders
    emit, for each element in order, the option name followed by the
    element itself, as it is; when the elements are strings this is what
    encoding each element on its own gives. *)
Theorem list_repeats_name_before_each_element (xs : list value) (key : string) :
  Command._keyword_arguments (VList xs) key =
    Return (flat_map (fun thing => [VStr key; thing]) xs) /\
  Executor._keyword_arguments (VList xs) key =
    flat_map (fun thing => [VStr key; thing]) xs /\
  (Forall is_str xs ->
   Command._keyword_arguments (VList xs) key = encode_elementwise xs key).
Proof.
  split; [reflexivity|]. split; [reflexivity|].
  intros Hxs. rewrite encode_elementwise_strings by assumption. reflexivity.
Qed.

Lemma list_repeats_name_before_each_element_witness :
  Forall is_str [VStr "a"; VStr "b"] /\
  Command._keyword_arguments (VList [VStr "a"; VStr "b"]) "--channel" =
    Return [VStr "--channel"; VStr "a"; VStr "--channel"; VStr "b"] /\
  Command._keyword_arguments (VList [VStr "a"; VStr "b"]) "--channel" =
    encode_elementwise [VStr "a"; VStr "b"] "--channel".
Proof.
  assert (Hxs : Forall is_str [VStr "a"; VStr "b"])
    by (repeat constructor).
  destruct (list_repeats_name_before_each_element [VStr "a"; VStr "b"] "--channel")
    as (Hcmd & _ & Helem).
  split; [exact Hxs|]. split; [exact Hcmd|exact (Helem Hxs)].
Defined.

(** C8, as stated, fails: an integer element is emitted as it is, while
    encoded on its own it would be turned into text. *)
Lemma list_element_not_encoded :
  Command._keyword_arguments (VList [VInt 1]) "--channel" =
    Return [VStr "--channel"; VInt 1] /\
  encode_elementwise [VInt 1] "--channel" =
    Return [VStr "--channel"; VStr "1"] /\
  Command._keyword_arguments (VList [VInt 1]) "--channel" <>
    encode_elementwise [VInt 1] "--channel".
Proof.
  split; [reflexivity|]. split; [reflexivity|]. discriminate.
Qed.

(** C4, as amended. The encoder of [command.py] raises a [ValueError]
    holding the offending value for every value outside the supported
    tags; the encoder of [executor.py] takes such a value for a flag and
    yields the option name alone. Each encoder knows the [Eq] class of its
    own module only, an instance of the other module's is such a value. *)
Theorem unsupported_value_encoding (v : value) (key : string) :
  (Command.supported v = false ->
   Command._keyword_arguments v key = Raise (ValueError "cannot process" v)) /\
  (Executor.registered v = false ->
   Executor._keyword_arguments v key = [VStr key]).
Proof.
  split; destruct v; cbn; intros H; try discriminate H; reflexivity.
Qed.

Lemma unsupported_value_encoding_witness :
  Command.supported VNone = false /\
  Executor.registered VNone = false /\
  Command._keyword_arguments VNone "--quiet" =
    Raise (ValueError "cannot process" VNone) /\
  Executor._keyword_arguments VNone "--quiet" = [VStr "--quiet"].
Proof.
  destruct (unsupported_value_encoding VNone "--quiet") as [Hcommand Hexecutor].
  split; [reflexivity|]. split; [reflexivity|].
  split; [apply Hcommand|apply Hexecutor]; reflexivity.
Defined.

(** C4, as stated, fails on the encoder of [executor.py]: [None] has none
    of the supported tags and yet is encoded, as a flag. *)
Lemma executor_encodes_unsupported_value :
  Command.supported VNone = false /\
  Executor.registered VNone = false /\
  Executor._keyword_arguments VNone "--quiet" = [VStr "--quiet"].
Proof. repeat split. Qed.

Lemma supported_value_encoding (v : value) (key : string) :
  Command.supported v = true ->
  exists tokens, Command._keyword_arguments v key = Return tokens.
Proof.
  destruct v; cbn; intros H; try discriminate H; eexists; reflexivity.
Qed.

(** ** Command *)

Section CommandFacts.

Import Shell Command.

Lemma evolve_RunArgs_spec (kwargs : list (string * value)) (r : RunArgs) :
  evolve_RunArgs r kwargs =
    match unexpected_keyword kwargs with
    | None =>
        Return {| text := default (text r) (kw_get "text" kwargs);
                  check := default (check r) (kw_get "check" kwargs);
                  output := default (output r) (kw_get "output" kwargs) |}
    | Some key =>
        Raise (TypeError ("__init__() got an unexpected keyword argument '"
                          +:+ key +:+ "'"))
    end.
Proof.
  revert r. induction kwargs as [|[k v] rest IH]; intros r.
  - destruct r; reflexivity.
  - unfold unexpected_keyword in *.
    cbn [evolve_RunArgs kw_get find fst existsb run_arg_names].
    destruct (String.eqb_spec k "text") as [->|Htext];
      [|destruct (String.eqb_spec k "check") as [->|Hcheck];
        [|destruct (String.eqb_spec k "output") as [->|Houtput]]];
      cbn [orb negb fmap option_fmap option_map fst]; [| | |reflexivity];
      rewrite IH; destruct (find _ rest) as [[k' v']|]; cbn; try reflexivity;
      destruct (kw_get "text" rest), (kw_get "check" rest),
        (kw_get "output" rest); reflexivity.
Qed.

(** C7. Calling a command with no positional arguments and no keyword
    overrides returns a command with the same argument vector; it is
    the command called. *)
Theorem call_without_arguments (self : Command) :
  exists c,
    call self None [] = Return c /\
    total_args c = total_args self /\
    c = self.
Proof.
  exists self. destruct self as [sub cmd_args run_args].
  repeat split.
Qed.

(** C5, as amended. A call first goes through the positional arguments
    it is given, and an error raised there is the error of the call.
    Otherwise it hands every keyword override to the [RunArgs]: when all
    the keys are among [text], [check] and [output] the result is a new
    command with the same subcommand, with the given positional arguments
    after the ones it had, and with those fields taking the given values;
    any other key makes the call raise a [TypeError], and a command has no
    options to merge it into. *)
Theorem call_keywords_are_run_args (self : Command) (cmd_args : option iterable)
    (kwargs : list (string * value)) :
  call self cmd_args kwargs =
    match from_option iterate (Return []) cmd_args with
    | Raise e => Raise e
    | Return items =>
        match unexpected_keyword kwargs with
        | None =>
            Return {| _subcommand := _subcommand self;
                      _cmd_args := _cmd_args self ++ items;
                      _run_args :=
                        {| text := default (text (_run_args self))
                                     (kw_get "text" kwargs);
                           check := default (check (_run_args self))
                                      (kw_get "check" kwargs);
                           output := default (output (_run_args self))
                                       (kw_get "output" kwargs) |} |}
        | Some key =>
            Raise (TypeError ("__init__() got an unexpected keyword argument '"
                              +:+ key +:+ "'"))
        end
    end.
Proof.
  unfold call. rewrite evolve_RunArgs_spec.
  destruct cmd_args as [it|]; cbn.
  - destruct (iterate it) as [items|e]; cbn; [|reflexivity].
    destruct (unexpected_keyword kwargs); reflexivity.
  - rewrite app_nil_r. destruct (unexpected_keyword kwargs); reflexivity.
Qed.

Example call_with_check_off :
  call {| _subcommand := [VStr "pip"; VStr "install"]; _cmd_args := [];
          _run_args := default_RunArgs |}
       (Some (IList [VStr "attrs"])) [("check", VBool false)] =
    Return {| _subcommand := [VStr "pip"; VStr "install"];
              _cmd_args := [VStr "attrs"];
              _run_args := {| text := VBool true; check := VBool false;
                              output := VOutput PASS_THROUGH |} |}.
Proof. reflexivity. Qed.

(** C5, as stated, fails: a keyword that is no field of [RunArgs] is not
    kept as an option of a new command, the call raises. *)
Lemma call_refuses_option_keyword :
  call {| _subcommand := [VStr "git"; VStr "commit"]; _cmd_args := [];
          _run_args := default_RunArgs |}
       None [("message", VStr "msg")] =
    Raise (TypeError "__init__() got an unexpected keyword argument 'message'") /\
  ~ exists c,
      call {| _subcommand := [VStr "git"; VStr "commit"]; _cmd_args := [];
              _run_args := default_RunArgs |}
           None [("message", VStr "msg")] = Return c.
Proof.
  split; [reflexivity|]. intros [c Hc]. discriminate Hc.
Qed.

End CommandFacts.

(** ** The order of the argument vector *)

Section ArgvFacts.

Import Shell Command.


Lemma cmd_loop (kwargs : list (string * value)) (ret : list value) :
  fold_left
    (fun ret '(key, v) =>
       let key := "--" +:+ replace_underscores key in
       ret ++ Executor._keyword_arguments v key)
    kwargs ret =
  ret ++ flat_map (fun kv =>
                     Executor._keyword_arguments kv.2
                       ("--" +:+ replace_underscores kv.1)) kwargs.
Proof.
  revert ret. induction kwargs as [|[k v] rest IH]; intros ret; cbn.
  - rewrite app_nil_r. reflexivity.
  - rewrite IH, <- app_assoc. reflexivity.
Qed.

(** [cmd] of [executor.py] puts the binary first, then the positional
    arguments, then the tokens of the options in insertion order. *)
Lemma cmd_order (binary : value) (a : list value)
    (kwargs : list (string * value)) :
  Executor.cmd binary a kwargs =
    [binary] ++ a ++
    flat_map (fun kv =>
                Executor._keyword_arguments kv.2
                  ("--" +:+ replace_underscores kv.1)) kwargs.
Proof.
  unfold Executor.cmd. rewrite cmd_loop, <- app_assoc. reflexivity.
Qed.

Example cmd_pip_install :
  Executor.cmd (VStr "pip") [VStr "install"; VStr "attrs"]
      [("extra_index_url", VStr "https://x")] =
    [VStr "pip"; VStr "install"; VStr "attrs";
     VStr "--extra-index-url"; VStr "https://x"].
Proof. reflexivity. Qed.




End ArgvFacts.

(** ** Shell: deriving a shell *)

Section ShellFacts.

Import Shell.

Lemma patch_loop_at (l : loc) (kwargs : list (string * value))
    (h : gmap loc (gmap string value)) (d : gmap string value) :
  h !! l = Some d ->
  fold_left
    (fun h '(key, v) =>
       let h := if is_None v then dict_pop l key h else h in
       dict_setitem l key v h)
    kwargs h !! l = Some (fold_left patch_entry kwargs d).
Proof.
  revert h d. induction kwargs as [|[k v] rest IH]; intros h d Hl; [exact Hl|].
  cbn [fold_left]. apply IH.
  unfold dict_setitem, dict_pop, patch_entry. cbn [fst snd].
  destruct (is_None v).
  - rewrite lookup_alter_eq, lookup_alter_eq, Hl. reflexivity.
  - rewrite lookup_alter_eq, Hl. reflexivity.
Qed.

Lemma patch_loop_elsewhere (l l' : loc) (kwargs : list (string * value))
    (h : gmap loc (gmap string value)) :
  l' <> l ->
  fold_left
    (fun h '(key, v) =>
       let h := if is_None v then dict_pop l key h else h in
       dict_setitem l key v h)
    kwargs h !! l' = h !! l'.
Proof.
  intros Hne. revert h. induction kwargs as [|[k v] rest IH]; intros h;
    [reflexivity|].
  cbn [fold_left]. rewrite IH.
  unfold dict_setitem, dict_pop.
  destruct (is_None v); rewrite !lookup_alter_ne by congruence; reflexivity.
Qed.

Lemma patch_entries_lookup (kwargs : list (string * value))
    (d : gmap string value) (key : string) :
  fold_left patch_entry kwargs d !! key =
    match kw_get key kwargs with
    | Some v => Some v
    | None => d !! key
    end.
Proof.
  revert d. induction kwargs as [|[k v] rest IH]; intros d; [reflexivity|].
  cbn [fold_left kw_get]. rewrite IH.
  destruct (kw_get key rest); [reflexivity|].
  unfold patch_entry. cbn [fst snd].
  destruct (String.eqb_spec k key) as [->|Hne].
  - apply lookup_insert_eq.
  - rewrite lookup_insert_ne by assumption.
    destruct (is_None v); [apply lookup_delete_ne; assumption|reflexivity].
Qed.

(** The environment of the shell [patch_env] returns: every key of the
    patch is bound to the value the patch gives it, [None] included, and
    the other keys are as in the receiver. *)
Lemma patch_env_lookup (self : Shell) (kwargs : list (string * value))
    (h : gmap loc (gmap string value)) (d : gmap string value) (key : string) :
  h !! env self = Some d ->
  exists d',
    (patch_env self kwargs h).2 !! env (patch_env self kwargs h).1 = Some d' /\
    d' !! key =
      match kw_get key kwargs with
      | Some v => Some v
      | None => d !! key
      end.
Proof.
  intros Hd. unfold patch_env, dict_copy. cbn [fst snd env].
  eexists. split.
  - apply patch_loop_at. rewrite lookup_insert_eq, Hd. reflexivity.
  - apply patch_entries_lookup.
Qed.

(** C9. Patching the environment returns a shell whose environment is a
    dictionary that did not exist before, and leaves every dictionary
    that existed, the receiver's among them, as it was; changing the
    directory touches no dictionary; both keep the other fields of the
    receiver. *)
Theorem derivation_leaves_receiver (self : Shell)
    (kwargs : list (string * value)) (new_dir : string)
    (h : gmap loc (gmap string value)) (d : gmap string value) :
  h !! env self = Some d ->
  ((patch_env self kwargs h).2 !! env self = Some d /\
   (forall l, is_Some (h !! l) -> (patch_env self kwargs h).2 !! l = h !! l) /\
   h !! env (patch_env self kwargs h).1 = None /\
   cwd (patch_env self kwargs h).1 = cwd self /\
   log_dir (patch_env self kwargs h).1 = log_dir self) /\
  ((chdir self new_dir h).2 = h /\
   cwd (chdir self new_dir h).1 = truediv (cwd self) new_dir /\
   env (chdir self new_dir h).1 = env self /\
   log_dir (chdir self new_dir h).1 = log_dir self).
Proof.
  intros Hd.
  assert (Hfresh : h !! fresh (dom h) = None)
    by (apply not_elem_of_dom, is_fresh).
  assert (Hframe : forall l, is_Some (h !! l) ->
                     (patch_env self kwargs h).2 !! l = h !! l).
  { intros l [dl Hl]. unfold patch_env, dict_copy. cbn [snd].
    assert (Hne : l <> fresh (dom h)) by congruence.
    rewrite patch_loop_elsewhere by assumption.
    apply lookup_insert_ne. congruence. }
  split; [|repeat split].
  split; [|split; [exact Hframe|split; [exact Hfresh|split; reflexivity]]].
  rewrite Hframe by eauto. exact Hd.
Qed.

Lemma derivation_leaves_receiver_witness :
  store_A1 !! env (shell_over (exits_with 0)) = Some {[ "A" := VStr "1" ]} /\
  (patch_env (shell_over (exits_with 0)) [("A", VNone); ("B", VStr "2")]
     store_A1).2 !! env (shell_over (exits_with 0)) =
    Some {[ "A" := VStr "1" ]}.
Proof.
  assert (Hd : store_A1 !! env (shell_over (exits_with 0)) =
                 Some {[ "A" := VStr "1" ]}) by reflexivity.
  split; [exact Hd|].
  exact (proj1 (proj1 (derivation_leaves_receiver (shell_over (exits_with 0))
                         [("A", VNone); ("B", VStr "2")] "sub" store_A1 _ Hd))).
Defined.

(** C2, where the code departs from the specification. After [patch_env] with
    [None] for a key, the key is still in the environment of the shell
    returned, bound to [None]: the entry is popped and then set again. *)
Theorem patch_env_None_stays_bound :
  exists d',
    (patch_env (shell_over (exits_with 0)) [("A", VNone)] store_A1).2
      !! env (patch_env (shell_over (exits_with 0)) [("A", VNone)] store_A1).1
      = Some d' /\
    d' !! "A" = Some VNone.
Proof.
  destruct (patch_env_lookup (shell_over (exits_with 0)) [("A", VNone)]
              store_A1 {[ "A" := VStr "1" ]} "A" eq_refl) as (d' & Hd' & HA).
  exists d'. split; [exact Hd'|exact HA].
Qed.

End ShellFacts.

(** ** Shell: running a command *)

Section RunFacts.

Import Shell.

Lemma run_command_not_logged (proc : list value -> outcome) (self : Shell)
    (cmd_args : list value) (run_args : RunArgs) (root_name : string) :
  _subprocess_run self = subprocess_run proc ->
  eq_Output (output run_args) LOG = false ->
  (exit_status (proc cmd_args) =? 0)%Z = false ->
  let data (s : string) :=
    if eq_Output (output run_args) CAPTURE then
      if truthy (text run_args) then VStr s else VBytes s
    else VNone in
  let out := data (written_stdout (proc cmd_args)) in
  let err := data (written_stderr (proc cmd_args)) in
  run_command self cmd_args run_args root_name =
    if truthy (check run_args) then
      Return (Visible (from_called_process_error
                         (exit_status (proc cmd_args)) cmd_args out err))
    else
      Return (Completed {| cp_args := cmd_args;
                           returncode := exit_status (proc cmd_args);
                           cp_stdout := out; cp_stderr := err |}).
Proof.
  intros Hrun Hlog Hstatus. unfold run_command. rewrite Hlog, Hrun.
  unfold subprocess_run. rewrite Hstatus.
  destruct (eq_Output (output run_args) CAPTURE), (truthy (check run_args)),
    (truthy (text run_args)); reflexivity.
Qed.

(** C1, where the code departs from the specification. With [check] true and
    a process that exits with status 1, [run_command] raises nothing: it
    hands the [VisibleCalledProcessError], which holds the streams and
    the argument vector, back to its caller as its result. With [check]
    false it returns the completed process with its return code. *)
Theorem run_command_returns_the_error :
  run_command (shell_over (exits_with 1)) [VStr "false"]
      {| text := VBool true; check := VBool true;
         output := VOutput PASS_THROUGH |} "6f1c" =
    Return (Visible {| wrapped := CalledProcessError 1 [VStr "false"] VNone VNone;
                       info_stdout := VNone; info_stderr := VNone;
                       info_cmd := [VStr "false"] |}) /\
  run_command (shell_over (exits_with 1)) [VStr "false"]
      {| text := VBool true; check := VBool false;
         output := VOutput PASS_THROUGH |} "6f1c" =
    Return (Completed {| cp_args := [VStr "false"]; returncode := 1;
                         cp_stdout := VNone; cp_stderr := VNone |}).
Proof.
  split.
  - apply (run_command_not_logged (exits_with 1)); reflexivity.
  - apply (run_command_not_logged (exits_with 1)); reflexivity.
Qed.

(** C6, where the code departs from the specification. Under [Output.LOG] no
    file is named: adding the suffix to the path raises a [TypeError]
    before the process is run; and the suffix written for the standard
    error stream is the one of the standard output stream. *)
Theorem run_command_log_raises (self : Shell) (cmd_args : list value)
    (text check : value) (root_name : string) :
  run_command self cmd_args
      {| text := text; check := check; output := VOutput LOG |} root_name =
    Raise (TypeError "unsupported operand type(s) for +: 'PosixPath' and 'str'") /\
  stderr_suffix = stdout_suffix /\
  stderr_suffix = ".out".
Proof. repeat split. Qed.

End RunFacts.

(** ** More on the encoders *)

Section EncoderFacts.

Import Command.

(** On a value with an encoding rule in [command.py] the two encoders
    give the same tokens, unless the value is an instance of [command.Eq]:
    that class is not registered in [executor.py], which yields the option
    name alone where [command.py] gives the equals form. *)
Theorem encoders_agree_except_on_Eq (v : value) (key : string) :
  supported v = true ->
  match v with
  | VEq content =>
      Command._keyword_arguments v key =
        Return [VStr (key +:+ "=" +:+ content)] /\
      Executor._keyword_arguments v key = [VStr key]
  | _ =>
      Command._keyword_arguments v key =
        Return (Executor._keyword_arguments v key)
  end.
Proof.
  destruct v; intros Hv; try discriminate Hv; try reflexivity.
  split; reflexivity.
Qed.

Lemma encoders_agree_except_on_Eq_witness :
  supported (VDict [(AStr "K", AInt 8080)]) = true /\
  Command._keyword_arguments (VDict [(AStr "K", AInt 8080)]) "--env" =
    Return (Executor._keyword_arguments (VDict [(AStr "K", AInt 8080)]) "--env").
Proof.
  split; [reflexivity|].
  apply (encoders_agree_except_on_Eq (VDict [(AStr "K", AInt 8080)]) "--env").
  reflexivity.
Defined.

Lemma list_tokens_all_str (key : string) (xs : list value) :
  all_str (flat_map (fun thing => [VStr key; thing]) xs) = all_str xs.
Proof.
  induction xs as [|x rest IH]; [reflexivity|].
  cbn. unfold all_str in IH. rewrite IH. reflexivity.
Qed.

Lemma dict_tokens_all_str (key : string) (items : list (atom * atom)) :
  all_str (flat_map (fun '(in_k, thing) =>
                       [VStr key; VStr (format in_k +:+ "=" +:+ format thing)])
             items) = true.
Proof.
  induction items as [|[k t] rest IH]; [reflexivity|].
  cbn. exact IH.
Qed.

(** The tokens of an option are all strings, except that a sequence hands
    on its elements: its tokens are all strings exactly when its elements
    are. *)
Theorem tokens_are_strings (v : value) (key : string) :
  all_str (Executor._keyword_arguments v key) =
    match v with
    | VList xs => all_str xs
    | _ => true
    end.
Proof.
  destruct v; try reflexivity.
  - apply list_tokens_all_str.
  - apply dict_tokens_all_str.
Qed.

(** A flag and an equals-form option are one token, a string or an integer
    two, a sequence or a mapping two for each element or entry; an empty
    sequence or mapping leaves no trace of the option. *)
Theorem token_count (v : value) (key : string) :
  length (Executor._keyword_arguments v key) =
    match v with
    | VList xs => 2 * length xs
    | VDict items => 2 * length items
    | VStr _ | VInt _ | VBool _ => 2
    | VEq _ | VExecutorEq _ | VBytes _ | VNoValue | VObject | VNone
    | VOutput _ => 1
    end.
Proof.
  destruct v; try reflexivity.
  - induction xs as [|x rest IH]; [reflexivity|].
    cbn in IH |- *. rewrite IH. lia.
  - induction items as [|[k t] rest IH]; [reflexivity|].
    cbn in IH |- *. rewrite IH. lia.
Qed.

(** The name an option is emitted under is two hyphens and the key with
    its underscores replaced: replacing leaves no underscore, keeps the
    length, changes nothing when done again, and changes a key exactly
    when it has an underscore. *)
Theorem replace_underscores_normalises (s : string) :
  iter_kwargs [(s, VNoValue)] = Return [VStr ("--" +:+ replace_underscores s)] /\
  has_underscore (replace_underscores s) = false /\
  String.length (replace_underscores s) = String.length s /\
  replace_underscores (replace_underscores s) = replace_underscores s /\
  String.eqb (replace_underscores s) s = negb (has_underscore s).
Proof.
  split; [reflexivity|].
  induction s as [|c rest (Hnone & Hlen & Hidem & Hsame)].
  - repeat split.
  - cbn [replace_underscores has_underscore String.length].
    destruct (Ascii.eqb c "_") eqn:Hc.
    + apply Ascii.eqb_eq in Hc. subst c. cbn.
      repeat split; [exact Hnone|congruence|congruence].
    + cbn [has_underscore replace_underscores String.eqb orb negb].
      rewrite Hc, Hidem, Ascii.eqb_refl. cbn [orb].
      repeat split; [exact Hnone|congruence|exact Hsame].
Qed.

End EncoderFacts.

(** ** More on argument bundles and commands *)

Section BundleFacts.

Import Shell Command.

Lemma iter_kwargs_spec (kwargs : list (string * value)) :
  iter_kwargs kwargs =
    match unsupported_option kwargs with
    | Some kv => Raise (ValueError "cannot process" kv.2)
    | None => Return (option_tokens kwargs)
    end.
Proof.
  unfold unsupported_option, option_tokens.
  induction kwargs as [|[k v] rest IH]; [reflexivity|].
  cbn [iter_kwargs find flat_map fst snd]. rewrite IH.
  destruct v; cbn; try reflexivity;
    destruct (find _ rest) as [[k' v']|]; reflexivity.
Qed.

(** Iterating a bundle raises a [ValueError] for the first option whose
    value has no encoding rule; when there is none it yields the option
    tokens, in insertion order, and then the positional arguments. *)
Theorem bundle_tokens_or_first_error (a : list value)
    (kwargs : list (string * value)) :
  iter (args a kwargs) =
    match unsupported_option kwargs with
    | Some kv => Raise (ValueError "cannot process" kv.2)
    | None => Return (option_tokens kwargs ++ a)
    end.
Proof.
  unfold iter, args. cbn [_kwargs _args]. rewrite iter_kwargs_spec.
  destruct (unsupported_option kwargs); reflexivity.
Qed.

Lemma executor_tokens_of_options (kwargs : list (string * value)) :
  unsupported_option kwargs = None ->
  has_Eq_option kwargs = false ->
  flat_map (fun kv =>
              Executor._keyword_arguments kv.2
                ("--" +:+ replace_underscores kv.1)) kwargs =
    option_tokens kwargs.
Proof.
  unfold unsupported_option, has_Eq_option, option_tokens.
  induction kwargs as [|[k v] rest IH]; [reflexivity|].
  cbn [find existsb flat_map fst snd]. intros Hsup HEq.
  destruct v; cbn in Hsup, HEq |- *; try discriminate Hsup;
    try discriminate HEq; rewrite IH by assumption; reflexivity.
Qed.

(** For the same arguments, none of them an instance of [command.Eq],
    [cmd] and a bundle emit the same tokens: what [cmd] returns is the
    binary followed by a rearrangement of what the bundle yields, the
    positional arguments being moved before the option tokens. *)
Theorem cmd_rearranges_bundle (binary : value) (a tokens : list value)
    (kwargs : list (string * value)) :
  iter (args a kwargs) = Return tokens ->
  has_Eq_option kwargs = false ->
  Executor.cmd binary a kwargs = binary :: a ++ option_tokens kwargs /\
  tokens = option_tokens kwargs ++ a /\
  Executor.cmd binary a kwargs ≡ₚ binary :: tokens.
Proof.
  intros Hiter HEq. unfold iter, args in Hiter. cbn [_kwargs _args] in Hiter.
  rewrite iter_kwargs_spec in Hiter.
  destruct (unsupported_option kwargs) eqn:Hsup; [discriminate Hiter|].
  cbn in Hiter. injection Hiter as <-.
  assert (Hcmd : Executor.cmd binary a kwargs = binary :: a ++ option_tokens kwargs).
  { unfold Executor.cmd. rewrite cmd_loop.
    rewrite executor_tokens_of_options by assumption. reflexivity. }
  split; [exact Hcmd|]. split; [reflexivity|].
  rewrite Hcmd. constructor. apply Permutation_app_comm.
Qed.

Lemma cmd_rearranges_bundle_witness :
  iter (args [VStr "a-machine:a-tag"]
          [("remove", VNoValue); ("env", VDict [(AStr "K", AStr "V")])]) =
    Return [VStr "--remove"; VStr "--env"; VStr "K=V"; VStr "a-machine:a-tag"] /\
  has_Eq_option [("remove", VNoValue); ("env", VDict [(AStr "K", AStr "V")])] =
    false /\
  Executor.cmd (VStr "docker") [VStr "a-machine:a-tag"]
      [("remove", VNoValue); ("env", VDict [(AStr "K", AStr "V")])] =
    [VStr "docker"; VStr "a-machine:a-tag"; VStr "--remove"; VStr "--env";
     VStr "K=V"].
Proof.
  assert (Hiter :
    iter (args [VStr "a-machine:a-tag"]
            [("remove", VNoValue); ("env", VDict [(AStr "K", AStr "V")])]) =
      Return [VStr "--remove"; VStr "--env"; VStr "K=V"; VStr "a-machine:a-tag"])
    by reflexivity.
  split; [exact Hiter|]. split; [reflexivity|].
  exact (proj1 (cmd_rearranges_bundle (VStr "docker") _ _ _ Hiter eq_refl)).
Defined.

(** With an instance of [command.Eq] among the options the two part: the
    bundle gives the equals form, [cmd] the option name alone. *)
Example cmd_and_bundle_part_on_Eq :
  iter (args [] [("format", VEq "%H")]) = Return [VStr "--format=%H"] /\
  Executor.cmd (VStr "git") [] [("format", VEq "%H")] =
    [VStr "git"; VStr "--format"].
Proof. split; reflexivity. Qed.

Lemma evolve_RunArgs_app (kw1 kw2 : list (string * value)) (r : RunArgs) :
  evolve_RunArgs r (kw1 ++ kw2) =
    (r1 ← evolve_RunArgs r kw1; evolve_RunArgs r1 kw2).
Proof.
  revert r. induction kw1 as [|[k v] rest IH]; intros r; [reflexivity|].
  cbn [app evolve_RunArgs].
  destruct (String.eqb k "text"); [apply IH|].
  destruct (String.eqb k "check"); [apply IH|].
  destruct (String.eqb k "output"); [apply IH|].
  reflexivity.
Qed.

(** When the positional arguments of two calls iterate without error,
    calling the result of the first is calling once: with the items of the
    first call followed by those of the second, and the keywords of the
    first followed by those of the second. A [TypeError] for a keyword of
    either call is then the error of the single call. *)
Theorem call_twice_is_call_once (self : Command) (it1 it2 : iterable)
    (xs ys : list value) (kw1 kw2 : list (string * value)) :
  iterate it1 = Return xs ->
  iterate it2 = Return ys ->
  (c ← call self (Some it1) kw1; call c (Some it2) kw2) =
    call self (Some (IList (xs ++ ys))) (kw1 ++ kw2).
Proof.
  intros H1 H2. unfold call. cbn [iterate].
  rewrite H1, evolve_RunArgs_app. cbn.
  destruct (evolve_RunArgs (_run_args self) kw1) as [r1|e]; cbn; [|reflexivity].
  rewrite H2. cbn.
  destruct (evolve_RunArgs r1 kw2) as [r2|e]; cbn; [|reflexivity].
  rewrite app_assoc. reflexivity.
Qed.

Lemma call_twice_is_call_once_witness :
  iterate (IList [VStr "-m"]) = Return [VStr "-m"] /\
  iterate (IArguments (args [VStr "README"] [("verbose", VNoValue)])) =
    Return [VStr "--verbose"; VStr "README"] /\
  (c ← call {| _subcommand := [VStr "git"; VStr "commit"]; _cmd_args := [];
               _run_args := default_RunArgs |}
            (Some (IList [VStr "-m"])) [("check", VBool false)];
   call c (Some (IArguments (args [VStr "README"] [("verbose", VNoValue)])))
     [("output", VOutput CAPTURE)]) =
    Return {| _subcommand := [VStr "git"; VStr "commit"];
              _cmd_args := [VStr "-m"; VStr "--verbose"; VStr "README"];
              _run_args := {| text := VBool true; check := VBool false;
                              output := VOutput CAPTURE |} |}.
Proof.
  split; [reflexivity|]. split; [reflexivity|].
  rewrite (call_twice_is_call_once
             {| _subcommand := [VStr "git"; VStr "commit"]; _cmd_args := [];
                _run_args := default_RunArgs |}
             (IList [VStr "-m"])
             (IArguments (args [VStr "README"] [("verbose", VNoValue)]))
             [VStr "-m"] [VStr "--verbose"; VStr "README"]
             [("check", VBool false)] [("output", VOutput CAPTURE)]
             eq_refl eq_refl).
  reflexivity.
Defined.

(** Binding a subcommand and calling can be done in either order, and the
    segment always stands before the positional arguments, also when it
    is bound after they were given. *)
Theorem getattr_commutes_with_call (self : Command) (name : string)
    (cmd_args : option iterable) (kwargs : list (string * value)) :
  call (getattr self name) cmd_args kwargs =
    (c ← call self cmd_args kwargs; Return (getattr c name)) /\
  total_args (getattr self name) =
    _subcommand self ++ [VStr (replace_underscores name)] ++ _cmd_args self.
Proof.
  split.
  - unfold call, getattr. cbn [_subcommand _cmd_args _run_args].
    destruct cmd_args as [it|]; cbn.
    + destruct (iterate it) as [items|e]; cbn; [|reflexivity].
      destruct (evolve_RunArgs (_run_args self) kwargs); reflexivity.
    + destruct (evolve_RunArgs (_run_args self) kwargs); reflexivity.
  - unfold total_args, getattr. cbn [_subcommand _cmd_args].
    rewrite <- app_assoc. reflexivity.
Qed.

(** A call never touches the subcommand and only adds at the end of the
    positional arguments, so the argument vector of the command it returns
    starts with that of the command called. *)
Theorem call_only_appends (self c : Command) (cmd_args : option iterable)
    (kwargs : list (string * value)) :
  call self cmd_args kwargs = Return c ->
  _subcommand c = _subcommand self /\
  exists items,
    from_option iterate (Return []) cmd_args = Return items /\
    _cmd_args c = _cmd_args self ++ items /\
    total_args c = total_args self ++ items.
Proof.
  unfold call. intros Hcall.
  destruct cmd_args as [it|]; cbn in Hcall |- *.
  - destruct (iterate it) as [items|e]; cbn in Hcall; [|discriminate Hcall].
    destruct (evolve_RunArgs (_run_args self) kwargs); cbn in Hcall;
      [|discriminate Hcall].
    injection Hcall as <-. split; [reflexivity|].
    exists items. unfold total_args. cbn. rewrite app_assoc. repeat split.
  - destruct (evolve_RunArgs (_run_args self) kwargs); cbn in Hcall;
      [|discriminate Hcall].
    injection Hcall as <-. split; [reflexivity|].
    exists []. unfold total_args. cbn. rewrite !app_nil_r. repeat split.
Qed.

Lemma call_only_appends_witness :
  call {| _subcommand := [VStr "pip"; VStr "install"]; _cmd_args := [VStr "-q"];
          _run_args := default_RunArgs |}
       (Some (IList [VStr "attrs"])) [("text", VBool false)] =
    Return {| _subcommand := [VStr "pip"; VStr "install"];
              _cmd_args := [VStr "-q"; VStr "attrs"];
              _run_args := {| text := VBool false; check := VBool true;
                              output := VOutput PASS_THROUGH |} |} /\
  exists items,
    Return [VStr "attrs"] = Return items /\
    [VStr "-q"; VStr "attrs"] = [VStr "-q"] ++ items /\
    [VStr "pip"; VStr "install"; VStr "-q"; VStr "attrs"] =
      [VStr "pip"; VStr "install"; VStr "-q"] ++ items.
Proof.
  split; [reflexivity|].
  exact (proj2 (call_only_appends
                  {| _subcommand := [VStr "pip"; VStr "install"];
                     _cmd_args := [VStr "-q"]; _run_args := default_RunArgs |}
                  _ (Some (IList [VStr "attrs"])) [("text", VBool false)]
                  eq_refl)).
Defined.

(** An option without an encoding rule in the bundle makes the call raise
    the [ValueError] of the first such option, whatever the keywords of the
    call are: the bundle is gone through before they are looked at. *)
Theorem call_raises_bundle_error_first (self : Command) (a : list value)
    (options kwargs : list (string * value)) (kv : string * value) :
  unsupported_option options = Some kv ->
  call self (Some (IArguments (args a options))) kwargs =
    Raise (ValueError "cannot process" kv.2).
Proof.
  intros Hkv. unfold call. cbn [iterate].
  unfold iter, args. cbn [_kwargs _args].
  rewrite iter_kwargs_spec, Hkv. reflexivity.
Qed.

Lemma call_raises_bundle_error_first_witness :
  unsupported_option [("quiet", VNoValue); ("index", VNone)] =
    Some ("index", VNone) /\
  call {| _subcommand := [VStr "pip"]; _cmd_args := [];
          _run_args := default_RunArgs |}
       (Some (IArguments (args [] [("quiet", VNoValue); ("index", VNone)])))
       [("message", VStr "msg")] =
    Raise (ValueError "cannot process" VNone).
Proof.
  split; [reflexivity|].
  apply (call_raises_bundle_error_first _ _ _ _ ("index", VNone)).
  reflexivity.
Defined.

End BundleFacts.

(** ** More on attribute names *)

Lemma replace_underscores_length (s : string) :
  String.length (replace_underscores s) = String.length s.
Proof.
  induction s as [|c rest IH]; [reflexivity|].
  cbn. rewrite IH. reflexivity.
Qed.

Lemma replace_underscores_none (s : string) :
  has_underscore (replace_underscores s) = false.
Proof.
  induction s as [|c rest IH]; [reflexivity|].
  cbn. destruct (Ascii.eqb c "_") eqn:Hc; cbn; [exact IH|].
  rewrite Hc. exact IH.
Qed.

Lemma rstrip_underscores_fixed (s : string) :
  ends_with_underscore s = false -> rstrip_underscores s = s.
Proof.
  induction s as [|c rest IH]; intros Hs; [reflexivity|].
  cbn [rstrip_underscores]. destruct rest as [|d rest'].
  - cbn in Hs |- *. rewrite Hs. reflexivity.
  - rewrite IH by exact Hs. reflexivity.
Qed.

Lemma rstrip_underscores_shortens (s : string) :
  ends_with_underscore s = true ->
  String.length (rstrip_underscores s) < String.length s.
Proof.
  induction s as [|c rest IH]; intros Hs; [discriminate Hs|].
  cbn [rstrip_underscores]. destruct rest as [|d rest'].
  - cbn in Hs |- *. rewrite Hs. cbn. lia.
  - specialize (IH Hs).
    destruct (rstrip_underscores (String d rest')) as [|e kept].
    + destruct (Ascii.eqb c "_"); cbn; lia.
    + cbn in IH |- *. lia.
Qed.

(** The token the executor's command gives for an attribute name is the
    segment [Command] of [command.py] appends for it exactly when the name
    does not end in an underscore: [Command] strips nothing, and a trailing
    underscore becomes a trailing hyphen of its segment. *)
Theorem subcommand_tokens_compared (e : Executor._ExecutoredCommand)
    (c : Command.Command) (name : string) :
  Command._subcommand (Command.getattr c name) =
    Command._subcommand c ++ [VStr (replace_underscores name)] /\
  String.eqb (Executor.bound_subcommand (Executor.getattr e name))
             (replace_underscores name) =
    negb (ends_with_underscore name).
Proof.
  split; [reflexivity|].
  unfold Executor.getattr. cbn [Executor.bound_subcommand].
  destruct (ends_with_underscore name) eqn:Hends; cbn [negb].
  - apply String.eqb_neq. intros Heq.
    apply (f_equal String.length) in Heq.
    rewrite !replace_underscores_length in Heq.
    pose proof (rstrip_underscores_shortens name Hends). lia.
  - rewrite rstrip_underscores_fixed by exact Hends. apply String.eqb_refl.
Qed.

(** Whatever the attribute name, the token is got from the part of the
    name before its trailing underscores, a part that does not end in an
    underscore, and holds no underscore. *)
Theorem getattr_on_any_name (self : Executor._ExecutoredCommand) (name : string) :
  exists body n,
    name = body +:+ underscores n /\
    ends_with_underscore body = false /\
    Executor.bound_subcommand (Executor.getattr self name) =
      replace_underscores body /\
    has_underscore (Executor.bound_subcommand (Executor.getattr self name)) = false.
Proof.
  destruct (rstrip_underscores_decomposition name) as (n & Hname & Hends).
  exists (rstrip_underscores name), n.
  unfold Executor.getattr. cbn [Executor.bound_subcommand].
  split; [exact Hname|]. split; [exact Hends|]. split; [reflexivity|].
  apply replace_underscores_none.
Qed.

(** ** More on deriving a shell *)

Section DerivationFacts.

Import Shell.

Lemma patch_env_content (self : Shell) (kwargs : list (string * value))
    (h : gmap loc (gmap string value)) (d : gmap string value) :
  h !! env self = Some d ->
  (patch_env self kwargs h).2 !! env (patch_env self kwargs h).1 =
    Some (fold_left patch_entry kwargs d).
Proof.
  intros Hd. unfold patch_env, dict_copy. cbn [fst snd env].
  apply patch_loop_at. rewrite lookup_insert_eq, Hd. reflexivity.
Qed.

(** In the environment of the shell [patch_env] returns, a key the patch
    does not name is as in the receiver, and a key the patch gives a value
    other than [None] is bound to that value. *)
Theorem patch_env_sets_and_keeps (self : Shell) (kwargs : list (string * value))
    (h : gmap loc (gmap string value)) (d : gmap string value) (key : string) :
  h !! env self = Some d ->
  exists d',
    (patch_env self kwargs h).2 !! env (patch_env self kwargs h).1 = Some d' /\
    match kw_get key kwargs with
    | None => d' !! key = d !! key
    | Some v => if is_None v then True else d' !! key = Some v
    end.
Proof.
  intros Hd. eexists. split; [apply patch_env_content; exact Hd|].
  rewrite patch_entries_lookup.
  destruct (kw_get key kwargs) as [v|]; [|reflexivity].
  destruct (is_None v); [exact I|reflexivity].
Qed.

Lemma patch_env_sets_and_keeps_witness :
  store_A1 !! env (shell_over (exits_with 0)) = Some {[ "A" := VStr "1" ]} /\
  exists d',
    (patch_env (shell_over (exits_with 0)) [("B", VStr "2")] store_A1).2
      !! env (patch_env (shell_over (exits_with 0)) [("B", VStr "2")]
                store_A1).1 = Some d' /\
    d' !! "B" = Some (VStr "2").
Proof.
  split; [reflexivity|].
  exact (patch_env_sets_and_keeps (shell_over (exits_with 0))
           [("B", VStr "2")] store_A1 {[ "A" := VStr "1" ]} "B" eq_refl).
Defined.

(** An empty patch gives a shell whose environment is a copy of the
    receiver's; and patching the result of a patch gives the environment
    that one patch with the entries of the first followed by those of
    the second gives. *)
Theorem patch_env_composes (self : Shell) (kw1 kw2 : list (string * value))
    (h : gmap loc (gmap string value)) (d : gmap string value) :
  h !! env self = Some d ->
  (patch_env self [] h).2 !! env (patch_env self [] h).1 = Some d /\
  (patch_env (patch_env self kw1 h).1 kw2 (patch_env self kw1 h).2).2
    !! env (patch_env (patch_env self kw1 h).1 kw2 (patch_env self kw1 h).2).1 =
  (patch_env self (kw1 ++ kw2) h).2 !! env (patch_env self (kw1 ++ kw2) h).1.
Proof.
  intros Hd. split; [exact (patch_env_content self [] h d Hd)|].
  rewrite (patch_env_content _ kw2 _ _ (patch_env_content self kw1 h d Hd)).
  rewrite (patch_env_content self (kw1 ++ kw2) h d Hd).
  rewrite fold_left_app. reflexivity.
Qed.

Lemma patch_env_composes_witness :
  store_A1 !! env (shell_over (exits_with 0)) = Some {[ "A" := VStr "1" ]} /\
  (patch_env (shell_over (exits_with 0)) [] store_A1).2
    !! env (patch_env (shell_over (exits_with 0)) [] store_A1).1 =
    Some {[ "A" := VStr "1" ]}.
Proof.
  split; [reflexivity|].
  exact (proj1 (patch_env_composes (shell_over (exits_with 0))
                  [("A", VStr "2")] [("B", VStr "3")] store_A1
                  {[ "A" := VStr "1" ]} eq_refl)).
Defined.

(** Changing the directory and patching the environment can be done in
    either order: the shell and the store are the same. *)
Theorem chdir_commutes_with_patch_env (self : Shell) (new_dir : string)
    (kwargs : list (string * value)) (h : gmap loc (gmap string value)) :
  patch_env (chdir self new_dir h).1 kwargs (chdir self new_dir h).2 =
  chdir (patch_env self kwargs h).1 new_dir (patch_env self kwargs h).2.
Proof. reflexivity. Qed.

End DerivationFacts.

(** ** More on running a command *)

Section CompletedFacts.

Import Shell.



End CompletedFacts.

(** ** The commands of an executor *)

Section RegistryFacts.

Import Executor.

(** [Executor.__getattr__], the hook Python calls for a name that normal
    attribute lookup does not find, returns for a name that was added the
    command whose name has hyphens for the underscores, unless the name
    both starts and ends with two underscores. *)
Theorem added_command_is_found (self : Executor) (name : string) :
  startswith name "__" && endswith name "__" = false ->
  Executor_getattr (add_command self name) name =
    Found {| _name := replace_underscores name |}.
Proof.
  intros Hname. unfold Executor_getattr, add_command. rewrite Hname.
  cbn [_commands].
  rewrite bool_decide_eq_true_2 by set_solver. reflexivity.
Qed.

Lemma added_command_is_found_witness :
  startswith "apt_get" "__" && endswith "apt_get" "__" = false /\
  Executor_getattr (add_command {| _commands := ∅ |} "apt_get") "apt_get" =
    Found {| _name := "apt-get" |}.
Proof.
  split; [reflexivity|].
  apply (added_command_is_found {| _commands := ∅ |} "apt_get"). reflexivity.
Defined.

(** A name that starts and ends with two underscores is never a command,
    not even after it was added. *)
Theorem reserved_name_is_refused (self : Executor) (name : string) :
  startswith name "__" && endswith name "__" = true ->
  Executor_getattr (add_command self name) name = AttributeError name /\
  Executor_getattr self name = AttributeError name.
Proof.
  intros Hname. unfold Executor_getattr. rewrite Hname. split; reflexivity.
Qed.

Lemma reserved_name_is_refused_witness :
  startswith "__len__" "__" && endswith "__len__" "__" = true /\
  Executor_getattr (add_command {| _commands := ∅ |} "__len__") "__len__" =
    AttributeError "__len__".
Proof.
  split; [reflexivity|].
  apply (reserved_name_is_refused {| _commands := ∅ |} "__len__"). reflexivity.
Defined.

(** Adding a command changes nothing for any other name: what was found
    is still found, what was refused is still refused. *)
Theorem add_command_leaves_other_names (self : Executor) (added name : string) :
  name <> added ->
  Executor_getattr (add_command self added) name = Executor_getattr self name.
Proof.
  intros Hne. unfold Executor_getattr, add_command. cbn [_commands].
  destruct (startswith name "__" && endswith name "__"); [reflexivity|].
  assert (Hsame : bool_decide (name ∈ _commands self ∪ {[added]}) =
                  bool_decide (name ∈ _commands self)).
  { apply bool_decide_ext. rewrite elem_of_union, elem_of_singleton.
    intuition congruence. }
  rewrite Hsame. reflexivity.
Qed.

Lemma add_command_leaves_other_names_witness :
  "apt_get" <> "brew" /\
  Executor_getattr (add_command {| _commands := ∅ |} "brew") "apt_get" =
    AttributeError "apt_get".
Proof.
  split; [discriminate|].
  rewrite (add_command_leaves_other_names {| _commands := ∅ |} "brew" "apt_get")
    by discriminate.
  reflexivity.
Defined.

(** Only a name held in the set of commands is found, and the command
    found has no underscore in its name. *)
Theorem found_command_was_added (self : Executor) (name : string)
    (c : _ExecutoredCommand) :
  Executor_getattr self name = Found c ->
  name ∈ _commands self /\
  _name c = replace_underscores name /\
  has_underscore (_name c) = false.
Proof.
  unfold Executor_getattr. intros Hfound.
  destruct (startswith name "__" && endswith name "__"); [discriminate Hfound|].
  destruct (bool_decide (name ∈ _commands self)) eqn:Hin;
    [|discriminate Hfound].
  apply bool_decide_eq_true in Hin.
  cbn in Hfound. injection Hfound as <-. cbn [_name].
  split; [exact Hin|]. split; [reflexivity|apply replace_underscores_none].
Qed.

Lemma found_command_was_added_witness :
  Executor_getattr {| _commands := {[ "docker_machine" ]} |} "docker_machine" =
    Found {| _name := "docker-machine" |} /\
  "docker_machine" ∈ ({[ "docker_machine" ]} : gset string).
Proof.
  assert (H : Executor_getattr {| _commands := {[ "docker_machine" ]} |}
                "docker_machine" = Found {| _name := "docker-machine" |})
    by reflexivity.
  split; [exact H|].
  exact (proj1 (found_command_was_added _ _ _ H)).
Defined.

End RegistryFacts.
